(** * Reconstruct/main.py: extraction of USB payload bytes from a capture

    The script opens [challenge.pcap] through pyshark, walks the packets once
    and appends, for every packet whose USB view says [transfer_type == "0x00"]
    and [src == "host"], the raw frame bytes after the USBPcap header to
    [out.raw].

    The embedding follows the script line by line.  Python objects with
    dynamic attributes are finite maps from names to values, exceptions are
    an explicit outcome, and the two effects of the script (the file
    [out.raw] and the standard output) are the state threaded through a small
    state-and-exception monad. *)

From Stdlib Require Import ZArith Ascii String List.
From Stdlib.Strings Require Import Byte.
From stdpp Require Import base tactics option list strings gmap.

Local Open Scope string_scope.
Local Open Scope Z_scope.
Local Open Scope list_scope.

(** ** Python values *)

(** [bytes] objects. *)
Abbreviation bytes := (list byte).

(** A pyshark layer: the decoded fields of one protocol, looked up by name.
    Field values are the text tokens tshark printed ([LayerFieldsContainer]
    is a subclass of [str]); they are taken to be ASCII text. *)
Abbreviation layer := (gmap string string).

(** A pyshark packet read with [include_raw=True, use_json=True]: its layers
    by (lower-case) protocol name, and the bytes of the whole frame that
    [get_raw_packet()] returns. *)
Record packet := Packet {
  layers : gmap string layer;
  raw_packet : bytes
}.

(** The exceptions the loop body can raise. *)
Inductive exn := AttributeError | ValueError.

Global Instance exn_eq_dec : EqDecision exn.
Proof. solve_decision. Defined.

(** ** The builtins the script uses *)

Module Builtins.

(** [int(s)] on a [str], base 10 (CPython's [PyLong_FromString]): white
    space around the literal is dropped, one sign is allowed, then decimal
    digits, where single underscores may separate digits.  A literal of
    more than [int_max_str_digits] digits is refused. *)

Definition is_space (c : ascii) : bool :=
  let n := N_of_ascii c in
  ((9 <=? n)%N && (n <=? 13)%N) || (n =? 32)%N.

Definition digit_value (c : ascii) : option Z :=
  let n := N_of_ascii c in
  if ((48 <=? n)%N && (n <=? 57)%N)%bool then Some (Z.of_N (n - 48)) else None.

Definition is_underscore (c : ascii) : bool := (N_of_ascii c =? 95)%N.

Fixpoint lstrip (l : list ascii) : list ascii :=
  match l with
  | c :: l' => if is_space c then lstrip l' else l
  | [] => []
  end.

Definition strip (l : list ascii) : list ascii :=
  rev (lstrip (rev (lstrip l))).

(** The scan after the first digit: [prev_us] says that the previous
    character was an underscore, [acc] is the value so far and [n] the
    number of digits seen. *)
Fixpoint scan_digits (prev_us : bool) (acc : Z) (n : nat) (l : list ascii)
  : option (Z * nat) :=
  match l with
  | [] => if prev_us then None else Some (acc, n)
  | c :: l' =>
      if is_underscore c then
        if prev_us then None else scan_digits true acc n l'
      else
        match digit_value c with
        | Some d => scan_digits false (acc * 10 + d) (S n) l'
        | None => None
        end
  end.

Definition int_max_str_digits : nat := 4300.

Definition parse_magnitude (l : list ascii) : option Z :=
  match l with
  | c :: l' =>
      match digit_value c with
      | Some d =>
          match scan_digits false d 1 l' with
          | Some (v, n) =>
              if (n <=? int_max_str_digits)%nat then Some v else None
          | None => None
          end
      | None => None
      end
  | [] => None
  end.

Definition py_int (s : string) : option Z :=
  match strip (list_ascii_of_string s) with
  | "+"%char :: l => parse_magnitude l
  | "-"%char :: l => Z.opp <$> parse_magnitude l
  | l => parse_magnitude l
  end.

(** [b[h:]] on a sequence: a negative start counts from the end, and the
    start is clipped to [0 .. len(b)]. *)
Definition slice_from {A : Type} (b : list A) (h : Z) : list A :=
  let len := Z.of_nat (length b) in
  let start := if h <? 0 then Z.max (h + len) 0 else Z.min h len in
  drop (Z.to_nat start) b.

End Builtins.

Export Builtins.

(** ** Effects *)

(** What the script can change: the file [out.raw] ([None] while it does not
    exist) and the lines printed, kept as the numbers printed. *)
Record world := World {
  out_raw : option bytes;
  stdout : list nat
}.

Inductive outcome (A : Type) :=
| Return (a : A)
| Raise (e : exn).
Arguments Return {A} a.
Arguments Raise {A} e.

(** A computation runs in a world, and returns or raises, leaving a world. *)
Definition Py (A : Type) : Type := world → outcome A * world.

Global Instance Py_ret : MRet Py := λ A a w, (Return a, w).

Global Instance Py_bind : MBind Py := λ A B f m w,
  match m w with
  | (Return a, w') => f a w'
  | (Raise e, w') => (Raise e, w')
  end.

Definition raise {A : Type} (e : exn) : Py A := λ w, (Raise e, w).

Definition or_raise {A : Type} (e : exn) (o : option A) : Py A :=
  match o with
  | Some a => mret a
  | None => raise e
  end.

(** [packet.<name>]: pyshark's [Packet.__getattr__] returns the layer of that
    name and raises [AttributeError] when the packet has none. *)
Definition packet_getattr (p : packet) (name : string) : Py layer :=
  or_raise AttributeError (layers p !! name).

(** [layer.<name>]: the field of that name, [AttributeError] without it. *)
Definition layer_getattr (l : layer) (name : string) : Py string :=
  or_raise AttributeError (l !! name).

(** [int(s)], raising [ValueError] on an invalid literal. *)
Definition int (s : string) : Py Z := or_raise ValueError (py_int s).

(** [print(n)]. *)
Definition print (n : nat) : Py unit := λ w,
  (Return (), {| out_raw := out_raw w; stdout := stdout w ++ [n] |}).

(** [open("out.raw", "wb")]: the file is created, or truncated. *)
Definition open_wb : Py unit := λ w,
  (Return (), {| out_raw := Some []; stdout := stdout w |}).

(** [f.write(data)] on the open file: the bytes are appended.  Leaving the
    [with] block closes the file on every path, so what was written before
    an exception stays in the file. *)
Definition write (data : bytes) : Py unit := λ w,
  (Return (), {| out_raw := Some (default [] (out_raw w) ++ data);
                 stdout := stdout w |}).

(** [for packet in cap: body], over the packets the capture yields. *)
Fixpoint for_each (cap : list packet) (body : packet → Py unit) : Py unit :=
  match cap with
  | [] => mret ()
  | p :: rest => body p ;; for_each rest body
  end.

(** ** The script *)

(** The body of the loop (lines 9 to 14).  [and] evaluates its right operand
    only when the left one is true. *)
Definition loop_body (p : packet) : Py unit :=
  usb ← packet_getattr p "usb";
  transfer_type ← layer_getattr usb "transfer_type";
  if String.eqb transfer_type "0x00" then
    src ← layer_getattr usb "src";
    if String.eqb src "host" then
      hl ← layer_getattr usb "usbpcap_header_len";
      header_len ← int hl;
      let data := slice_from (raw_packet p) header_len in
      print (length data) ;;
      write data
    else mret ()
  else mret ().

(** The whole script, on the packets of the capture. *)
Definition main (cap : list packet) : Py unit :=
  open_wb ;; for_each cap loop_body.

(** ** The vocabulary of the specification *)

(** The field [name] of the USB view of a record, when the record has the
    view and the view has the field. *)
Definition usb_field (p : packet) (name : string) : option string :=
  layers p !! "usb" ≫= λ usb, usb !! name.

(** The filter predicate: [transfer_type == "0x00" and src == "host"]. *)
Definition matching (p : packet) : bool :=
  bool_decide (usb_field p "transfer_type" = Some "0x00")
  && bool_decide (usb_field p "src" = Some "host").

(** The condition of the [if] evaluates, and to false: the record has the
    view and the fields the condition reads, and one comparison fails. *)
Definition skipped (p : packet) : bool :=
  match usb_field p "transfer_type" with
  | Some t =>
      if String.eqb t "0x00" then
        match usb_field p "src" with
        | Some s => negb (String.eqb s "host")
        | None => false
        end
      else true
  | None => false
  end.

(** The header length of a record, when the field is there and is an integer
    literal. *)
Definition header_len_of (p : packet) : option Z :=
  usb_field p "usbpcap_header_len" ≫= py_int.

(** The bytes a matching record adds to the file: [raw[header_len:]]; none
    when the header length cannot be read, since the body raises before it
    writes. *)
Definition payload (p : packet) : bytes :=
  match header_len_of p with
  | Some h => slice_from (raw_packet p) h
  | None => []
  end.

(** The records on which the body does not raise: those the filter skips,
    and the matching ones whose header length is an integer literal. *)
Definition processable (p : packet) : bool :=
  skipped p || (matching p && bool_decide (is_Some (header_len_of p))).

(** The records the loop gets through: those before the first one on which
    the body raises. *)
Fixpoint accepted (cap : list packet) : list packet :=
  match cap with
  | [] => []
  | p :: rest => if processable p then p :: accepted rest else []
  end.

(** What the matching records of a list add to the file, in order. *)
Definition written (cap : list packet) : bytes :=
  mjoin (payload <$> filter (λ p, matching p = true) cap).

(** What they print: the length of each payload. *)
Definition reported (cap : list packet) : list nat :=
  (λ p, length (payload p)) <$> filter (λ p, matching p = true) cap.

(** ** Sample records *)

(** A USBPcap record with the three fields the script reads. *)
Definition usb_packet (transfer_type src header_len : string) (raw : bytes)
  : packet :=
  {| layers := {[ "usb" := {[ "transfer_type" := transfer_type;
                              "src" := src;
                              "usbpcap_header_len" := header_len ]} ]};
     raw_packet := raw |}.

(** A record without a USB view: an ARP frame of a mixed capture. *)
Definition arp_packet (raw : bytes) : packet :=
  {| layers := {[ "eth" := {[ "type" := "0x0806" ]};
                  "arp" := {[ "opcode" := "1" ]} ]};
     raw_packet := raw |}.

Definition frame8 : bytes :=
  [x10; x11; x12; x13; x14; x15; x16; x17]%byte.

(** An isochronous record from the host, 4 bytes of header, 8 of frame. *)
Definition iso_packet : packet := usb_packet "0x00" "host" "4" frame8.

(** The world before the script has run: no [out.raw], nothing printed. *)
Definition fresh : world := {| out_raw := None; stdout := [] |}.

(** ** The builtins *)

Section slice.
Context {A : Type}.
Implicit Types (b : list A) (h : Z).

Lemma slice_from_nonneg b h : 0 ≤ h → slice_from b h = drop (Z.to_nat h) b.
Proof.
  intros Hh. unfold slice_from.
  destruct (Z.ltb_spec h 0) as [?|_]; [lia|].
  destruct (Z.le_gt_cases h (Z.of_nat (length b))) as [Hle|Hgt].
  - by rewrite Z.min_l.
  - rewrite Z.min_r by lia. rewrite Nat2Z.id.
    rewrite !drop_ge; [done | lia | lia].
Qed.

Lemma slice_from_beyond b h : Z.of_nat (length b) ≤ h → slice_from b h = [].
Proof.
  intros Hh. rewrite slice_from_nonneg by lia. apply drop_ge. lia.
Qed.

Lemma slice_from_zero b : slice_from b 0 = b.
Proof. by rewrite slice_from_nonneg. Qed.

Lemma slice_from_neg b h :
  h < 0 → slice_from b h = drop (length b - Z.to_nat (- h)) b.
Proof.
  intros Hh. unfold slice_from.
  destruct (Z.ltb_spec h 0) as [_|?]; [|lia].
  f_equal. lia.
Qed.

Lemma slice_from_suffix b h : slice_from b h `suffix_of` b.
Proof. unfold slice_from. apply suffix_drop. Qed.

Lemma slice_from_length b h :
  length (slice_from b h) =
    if h <? 0 then Nat.min (Z.to_nat (- h)) (length b)
    else (length b - Z.to_nat h)%nat.
Proof.
  destruct (Z.ltb_spec h 0).
  - rewrite slice_from_neg by done. rewrite length_drop. lia.
  - rewrite slice_from_nonneg by done. apply length_drop.
Qed.
End slice.

(** ** The loop body, case by case *)

Ltac body_unfold :=
  unfold loop_body, packet_getattr, layer_getattr, int, or_raise, raise,
    print, write, mbind, Py_bind, mret, Py_ret.

Lemma matching_fields p :
  matching p = true ↔
  usb_field p "transfer_type" = Some "0x00" ∧ usb_field p "src" = Some "host".
Proof.
  unfold matching. rewrite andb_true_iff, !bool_decide_eq_true. done.
Qed.

Lemma not_matching_fields p :
  matching p = false ↔
  usb_field p "transfer_type" ≠ Some "0x00" ∨ usb_field p "src" ≠ Some "host".
Proof.
  unfold matching. rewrite andb_false_iff, !bool_decide_eq_false. done.
Qed.

Lemma skipped_not_matching p : skipped p = true → matching p = false.
Proof.
  unfold skipped. rewrite not_matching_fields.
  destruct (usb_field p "transfer_type") as [t|]; [|done].
  destruct (String.eqb_spec t "0x00") as [Ht|Ht].
  - destruct (usb_field p "src") as [s|]; [|done].
    destruct (String.eqb_spec s "host") as [Hs|Hs]; [done|].
    intros _. right. congruence.
  - intros _. left. congruence.
Qed.

(** A record the filter skips leaves the world as it is. *)
Lemma loop_body_skipped p w : skipped p = true → loop_body p w = (Return (), w).
Proof.
  unfold skipped, usb_field. body_unfold.
  destruct (layers p !! "usb") as [u|]; simpl; [|done].
  destruct (u !! "transfer_type") as [t|]; simpl; [|done].
  destruct (String.eqb t "0x00"); [|done].
  destruct (u !! "src") as [s|]; simpl; [|done].
  by destruct (String.eqb s "host").
Qed.

(** A matching record with a readable header length: one line printed and
    the payload appended. *)
Lemma loop_body_matching p h w :
  matching p = true → header_len_of p = Some h →
  loop_body p w =
    (Return (),
     {| out_raw := Some (default [] (out_raw w) ++ slice_from (raw_packet p) h);
        stdout := stdout w ++ [length (slice_from (raw_packet p) h)] |}).
Proof.
  rewrite matching_fields. unfold header_len_of, usb_field. body_unfold.
  destruct (layers p !! "usb") as [u|]; simpl; [|by intros [? _]].
  intros [-> ->]; simpl.
  destruct (u !! "usbpcap_header_len") as [s|]; simpl; [|done].
  by intros ->.
Qed.

(** A matching record whose header length is not an integer literal. *)
Lemma loop_body_bad_int p s w :
  matching p = true → usb_field p "usbpcap_header_len" = Some s →
  py_int s = None → loop_body p w = (Raise ValueError, w).
Proof.
  rewrite matching_fields. unfold usb_field. body_unfold.
  destruct (layers p !! "usb") as [u|]; simpl; [|by intros [? _]].
  intros [-> ->] -> ->. done.
Qed.

(** A record without the USB view. *)
Lemma loop_body_no_usb p w :
  layers p !! "usb" = None → loop_body p w = (Raise AttributeError, w).
Proof. body_unfold. by intros ->. Qed.

(** Whatever the body does on a record that does not match, the world stays
    as it is, and the only error is a missing attribute. *)
Lemma loop_body_not_matching p w :
  matching p = false →
  loop_body p w = (Return (), w) ∨ loop_body p w = (Raise AttributeError, w).
Proof.
  rewrite not_matching_fields. unfold usb_field. body_unfold.
  destruct (layers p !! "usb") as [u|]; simpl; [|by right].
  destruct (u !! "transfer_type") as [t|]; simpl; [|by right].
  destruct (String.eqb_spec t "0x00") as [->|?]; [|by left].
  destruct (u !! "src") as [s|]; simpl; [|by right].
  destruct (String.eqb_spec s "host") as [->|?]; [|by left].
  by intros [?|?].
Qed.

(** A matching record whose view has no header length field. *)
Lemma loop_body_no_header_len p w :
  matching p = true → usb_field p "usbpcap_header_len" = None →
  loop_body p w = (Raise AttributeError, w).
Proof.
  rewrite matching_fields. unfold usb_field. body_unfold.
  destruct (layers p !! "usb") as [u|]; simpl; [|by intros [? _]].
  by intros [-> ->] ->.
Qed.

(** The frame of a record that does not match is never read. *)
Lemma loop_body_not_matching_raw p raw w :
  matching p = false →
  loop_body p w = loop_body {| layers := layers p; raw_packet := raw |} w.
Proof.
  rewrite not_matching_fields. unfold usb_field. body_unfold. simpl.
  destruct (layers p !! "usb") as [u|]; simpl; [|done].
  destruct (u !! "transfer_type") as [t|]; simpl; [|done].
  destruct (String.eqb_spec t "0x00") as [->|?]; [|done].
  destruct (u !! "src") as [s|]; simpl; [|done].
  destruct (String.eqb_spec s "host") as [->|?]; [|done].
  by intros [?|?].
Qed.

(** The two shapes of a step: either the body returns, having printed one
    length and appended that many bytes, or it leaves the world as it is.
    Which one, and the bytes, depend on the record alone. *)
Lemma loop_body_cases p :
  (∃ data, ∀ w,
      loop_body p w =
        (Return (), {| out_raw := Some (default [] (out_raw w) ++ data);
                       stdout := stdout w ++ [length data] |}))
  ∨ (∃ r, ∀ w, loop_body p w = (r, w)).
Proof.
  destruct (matching p) eqn:Hm.
  - destruct (header_len_of p) as [h|] eqn:Hh.
    + left. exists (slice_from (raw_packet p) h). intros w.
      by apply loop_body_matching.
    + right. unfold header_len_of in Hh.
      destruct (usb_field p "usbpcap_header_len") as [t|] eqn:Ht.
      * exists (Raise ValueError). intros w. by apply (loop_body_bad_int p t).
      * exists (Raise AttributeError). intros w.
        by apply loop_body_no_header_len.
  - right.
    destruct (loop_body_not_matching p {| out_raw := None; stdout := [] |} Hm)
      as [Hr|Hr].
    + exists (Return ()). intros w.
      destruct (loop_body_not_matching p w Hm) as [->|Hw]; [done|].
      revert Hr Hw. clear. unfold usb_field. body_unfold.
      destruct (layers p !! "usb") as [u|]; simpl; [|done].
      destruct (u !! "transfer_type") as [t|]; simpl; [|done].
      destruct (String.eqb t "0x00"); [|done].
      destruct (u !! "src") as [s|]; simpl; [|done].
      destruct (String.eqb s "host"); [|done].
      destruct (u !! "usbpcap_header_len") as [x|]; simpl; [|done].
      by destruct (py_int x).
    + exists (Raise AttributeError). intros w.
      destruct (loop_body_not_matching p w Hm) as [Hw| ->]; [|done].
      revert Hr Hw. clear. unfold usb_field. body_unfold.
      destruct (layers p !! "usb") as [u|]; simpl; [|done].
      destruct (u !! "transfer_type") as [t|]; simpl; [|done].
      destruct (String.eqb t "0x00"); [|done].
      destruct (u !! "src") as [s|]; simpl; [|done].
      destruct (String.eqb s "host"); [|done].
      destruct (u !! "usbpcap_header_len") as [x|]; simpl; [|done].
      by destruct (py_int x).
Qed.

(** ** The loop *)

Lemma written_nil : written [] = [].
Proof. done. Qed.

Lemma written_app l1 l2 : written (l1 ++ l2) = written l1 ++ written l2.
Proof. unfold written. by rewrite filter_app, fmap_app, join_app. Qed.

Lemma written_cons_matching p l :
  matching p = true → written (p :: l) = payload p ++ written l.
Proof. intros Hm. unfold written. by rewrite filter_cons_True. Qed.

Lemma written_cons_not_matching p l :
  matching p = false → written (p :: l) = written l.
Proof.
  intros Hm. unfold written. rewrite filter_cons_False; [done|congruence].
Qed.

Lemma reported_app l1 l2 : reported (l1 ++ l2) = reported l1 ++ reported l2.
Proof. unfold reported. by rewrite filter_app, fmap_app. Qed.

Lemma reported_cons_matching p l :
  matching p = true → reported (p :: l) = length (payload p) :: reported l.
Proof. intros Hm. unfold reported. by rewrite filter_cons_True. Qed.

Lemma reported_cons_not_matching p l :
  matching p = false → reported (p :: l) = reported l.
Proof.
  intros Hm. unfold reported. rewrite filter_cons_False; [done|congruence].
Qed.

Lemma written_length l : length (written l) = sum_list (reported l).
Proof.
  induction l as [|p l IH]; [done|].
  destruct (matching p) eqn:Hm.
  - rewrite written_cons_matching, reported_cons_matching by done.
    rewrite length_app, IH. done.
  - by rewrite written_cons_not_matching, reported_cons_not_matching.
Qed.

Lemma payload_header_len p h :
  header_len_of p = Some h → payload p = slice_from (raw_packet p) h.
Proof. unfold payload. by intros ->. Qed.

Lemma processable_cases p :
  processable p = true →
  skipped p = true ∨
  (matching p = true ∧ ∃ h, header_len_of p = Some h).
Proof.
  unfold processable. rewrite orb_true_iff, andb_true_iff, bool_decide_eq_true.
  intros [?|[? [h ?]]]; eauto.
Qed.

(** One step of the loop on a record the body accepts, with the file open. *)
Lemma loop_body_processable p o s :
  processable p = true →
  loop_body p {| out_raw := Some o; stdout := s |} =
    (Return (),
     {| out_raw := Some (o ++ written [p]); stdout := s ++ reported [p] |}).
Proof.
  intros [Hs|[Hm [h Hh]]]%processable_cases.
  - rewrite loop_body_skipped by done.
    pose proof (skipped_not_matching _ Hs) as Hm.
    rewrite written_cons_not_matching, reported_cons_not_matching by done.
    unfold written, reported; simpl. by rewrite !app_nil_r.
  - rewrite (loop_body_matching p h) by done.
    rewrite written_cons_matching, reported_cons_matching by done.
    rewrite (payload_header_len p h) by done.
    unfold written, reported; simpl. by rewrite !app_nil_r.
Qed.

Lemma for_each_cons p rest w :
  for_each (p :: rest) loop_body w =
    match loop_body p w with
    | (Return _, w') => for_each rest loop_body w'
    | (Raise e, w') => (Raise e, w')
    end.
Proof. done. Qed.

(** The loop over two lists in a row: the second runs in the world the first
    leaves, unless the first raised. *)
Lemma for_each_app l1 l2 w :
  for_each (l1 ++ l2) loop_body w =
    match for_each l1 loop_body w with
    | (Return _, w') => for_each l2 loop_body w'
    | (Raise e, w') => (Raise e, w')
    end.
Proof.
  revert w. induction l1 as [|p l1 IH]; intros w; [done|].
  rewrite <-app_comm_cons, !for_each_cons.
  destruct (loop_body p w) as [[[]|e] w']; [apply IH|done].
Qed.

(** On records the body accepts, the loop returns, and the file has grown by
    the payloads of the matching ones, in order. *)
Lemma for_each_processable cap o s :
  Forall (λ p, processable p = true) cap →
  for_each cap loop_body {| out_raw := Some o; stdout := s |} =
    (Return (),
     {| out_raw := Some (o ++ written cap); stdout := s ++ reported cap |}).
Proof.
  intros Hcap. revert o s.
  induction Hcap as [|p cap Hp _ IH]; intros o s.
  - simpl. unfold mret, Py_ret, written, reported; simpl.
    by rewrite !app_nil_r.
  - rewrite for_each_cons, loop_body_processable by done.
    rewrite IH, <-!app_assoc, <-written_app, <-reported_app. done.
Qed.

(** What was printed before the run has no influence on it. *)
Lemma for_each_stdout cap f s :
  for_each cap loop_body {| out_raw := f; stdout := s |} =
    let r := for_each cap loop_body {| out_raw := f; stdout := [] |} in
    (fst r, {| out_raw := out_raw (snd r); stdout := s ++ stdout (snd r) |}).
Proof.
  revert f s. induction cap as [|p cap IH]; intros f s.
  - simpl. unfold mret, Py_ret; simpl. by rewrite app_nil_r.
  - rewrite !for_each_cons.
    destruct (loop_body_cases p) as [[data Hp]|[[[]|e] Hp]];
      rewrite !Hp; simpl.
    + rewrite IH. rewrite (IH _ [length data]). simpl.
      by rewrite <-app_assoc.
    + apply IH.
    + by rewrite app_nil_r.
Qed.

(** Records that do not match leave the world as it is, whether the loop
    runs to its end or stops on a missing attribute. *)
Lemma for_each_no_match cap w :
  Forall (λ p, matching p = false) cap →
  snd (for_each cap loop_body w) = w.
Proof.
  induction 1 as [|p cap Hp _ IH]; [done|].
  rewrite for_each_cons.
  by destruct (loop_body_not_matching p w Hp) as [->| ->].
Qed.

(** A record on which the body raises stops the loop: the records after it
    are not looked at. *)
Lemma for_each_stops pre p post e w w' :
  for_each pre loop_body w = (Return (), w') →
  loop_body p w' = (Raise e, w') →
  for_each (pre ++ p :: post) loop_body w = (Raise e, w').
Proof.
  intros Hpre Hp. by rewrite for_each_app, Hpre, for_each_cons, Hp.
Qed.

(** On the other records the body raises, and leaves the world as it is. *)
Lemma loop_body_not_processable p :
  processable p = false → ∃ e, ∀ w, loop_body p w = (Raise e, w).
Proof.
  unfold processable.
  rewrite orb_false_iff, andb_false_iff, bool_decide_eq_false.
  intros [Hs Hm]. destruct (matching p) eqn:Hmatch.
  - destruct Hm as [?|Hh]; [done|].
    unfold header_len_of in Hh.
    destruct (usb_field p "usbpcap_header_len") as [t|] eqn:Ht.
    + exists ValueError. intros w. apply (loop_body_bad_int p t); [done..|].
      simpl in Hh. destruct (py_int t); [|done]. destruct Hh. eauto.
    + exists AttributeError. intros w. by apply loop_body_no_header_len.
  - exists AttributeError. intros w.
    apply not_matching_fields in Hmatch. revert Hs Hmatch. clear.
    unfold skipped, usb_field. body_unfold.
    destruct (layers p !! "usb") as [u|]; simpl; [|done].
    destruct (u !! "transfer_type") as [t|]; simpl; [|done].
    destruct (String.eqb_spec t "0x00") as [->|?]; [|done].
    destruct (u !! "src") as [s|]; simpl; [|done].
    destruct (String.eqb_spec s "host") as [->|?]; [|done].
    by intros _ [?|?].
Qed.

Lemma accepted_all cap :
  Forall (λ p, processable p = true) cap → accepted cap = cap.
Proof.
  induction 1 as [|p cap Hp _ IH]; [done|]. simpl. by rewrite Hp, IH.
Qed.

Lemma accepted_app l1 l2 :
  Forall (λ p, processable p = true) l1 →
  accepted (l1 ++ l2) = l1 ++ accepted l2.
Proof.
  induction 1 as [|p l1 Hp _ IH]; [done|]. simpl. by rewrite Hp, IH.
Qed.

(** The loop stops short of the whole capture only at a record on which the
    body raises. *)
Lemma accepted_split cap :
  accepted cap = cap
  ∨ ∃ p rest e,
      cap = accepted cap ++ p :: rest ∧ ∀ w, loop_body p w = (Raise e, w).
Proof.
  induction cap as [|p cap IH]; simpl; [by left|].
  destruct (processable p) eqn:Hp.
  - destruct IH as [->|(q & rest & e & Hcap & Hq)]; [by left|].
    right. exists q, rest, e. split; [|done]. simpl. by rewrite <-Hcap.
  - right. destruct (loop_body_not_processable p Hp) as [e He].
    by exists p, cap, e.
Qed.

Lemma accepted_processable cap :
  Forall (λ p, processable p = true) (accepted cap).
Proof.
  induction cap as [|p cap IH]; simpl; [constructor|].
  destruct (processable p) eqn:Hp; by constructor.
Qed.

(** The loop on any capture: the file grows by the payloads of the matching
    records the loop gets through, and the loop returns exactly when it
    gets through all of them. *)
Lemma for_each_accepted cap o s :
  ∃ r,
    for_each cap loop_body {| out_raw := Some o; stdout := s |} =
      (r, {| out_raw := Some (o ++ written (accepted cap));
             stdout := s ++ reported (accepted cap) |})
    ∧ (r = Return () ↔ Forall (λ p, processable p = true) cap).
Proof.
  revert o s. induction cap as [|p cap IH]; intros o s.
  - exists (Return ()). simpl. unfold mret, Py_ret, written, reported; simpl.
    rewrite !app_nil_r. by split.
  - rewrite for_each_cons. simpl. destruct (processable p) eqn:Hp.
    + rewrite loop_body_processable by done.
      destruct (IH (o ++ written [p]) (s ++ reported [p])) as (r & -> & Hr).
      exists r. split.
      * by rewrite <-!app_assoc, <-written_app, <-reported_app.
      * rewrite Hr, Forall_cons. split; [by intros ?|by intros [_ ?]].
    + destruct (loop_body_not_processable p Hp) as [e ->].
      exists (Raise e). split.
      * unfold written, reported; simpl. by rewrite !app_nil_r.
      * rewrite Forall_cons. split; [done|]. intros [? _]. congruence.
Qed.

Lemma main_unfold cap w :
  main cap w =
    for_each cap loop_body {| out_raw := Some []; stdout := stdout w |}.
Proof. done. Qed.

(** ** The claims *)

(** *** The output file is the ordered concatenation of the payloads *)

(** C1 as stated fails on a mixed capture: an ARP frame, then an isochronous
    record from the host.  The second record passes the filter and its
    payload is 4 bytes, but the run raises on the first record and leaves
    [out.raw] empty. *)
Lemma mixed_capture_output_differs :
  filter (λ p, matching p = true) [arp_packet frame8; iso_packet]
    = [iso_packet]
  ∧ mjoin (payload <$> filter (λ p, matching p = true)
                         [arp_packet frame8; iso_packet])
    = [x14; x15; x16; x17]%byte
  ∧ out_raw (snd (main [arp_packet frame8; iso_packet] fresh)) = Some []
  ∧ out_raw (snd (main [arp_packet frame8; iso_packet] fresh))
    ≠ Some (mjoin (payload <$> filter (λ p, matching p = true)
                                 [arp_packet frame8; iso_packet])).
Proof. vm_compute. repeat split; discriminate. Qed.

(** C1, as the code has it.  After the run on any capture, [out.raw] holds,
    in capture order, the bytes [raw[header_len:]] of every record that
    passes the filter [transfer_type == "0x00" and src == "host"] among the
    records the loop gets through, those before the first one on which the
    body raises, and nothing else.  The run returns without an error
    exactly when the body raises on no record, and then these are all the
    records of the capture. *)
Theorem main_writes_accepted_payloads (cap : list packet) (w : world) :
  out_raw (snd (main cap w)) =
    Some (mjoin (payload <$> filter (λ p, matching p = true) (accepted cap)))
  ∧ (fst (main cap w) = Return ()
     ↔ Forall (λ p, processable p = true) cap)
  ∧ (Forall (λ p, processable p = true) cap → accepted cap = cap)
  ∧ (accepted cap = cap
     ∨ ∃ p rest e,
         cap = accepted cap ++ p :: rest
         ∧ ∀ w', loop_body p w' = (Raise e, w'))
  ∧ (∀ p, p ∈ accepted cap → matching p = true →
       ∃ h, header_len_of p = Some h
            ∧ payload p = slice_from (raw_packet p) h).
Proof.
  rewrite main_unfold.
  destruct (for_each_accepted cap [] (stdout w)) as (r & -> & Hr).
  split; [done|]. split; [done|]. split; [|split].
  - apply accepted_all.
  - apply accepted_split.
  - intros p Hp Hm.
    pose proof (accepted_processable cap) as Hall.
    rewrite Forall_forall in Hall.
    destruct (processable_cases p (Hall p Hp)) as [Hs|[_ [h Hh]]].
    + apply skipped_not_matching in Hs. congruence.
    + exists h. split; [done|]. by apply payload_header_len.
Qed.

(** The run on a capture the body accepts throughout. *)
Example main_on_usb_capture :
  main [usb_packet "0x01" "host" "27" frame8; iso_packet;
        usb_packet "0x00" "host" "0" frame8] fresh =
    (Return (),
     {| out_raw := Some ([x14; x15; x16; x17] ++ frame8)%byte;
        stdout := [4; 8]%nat |}).
Proof. vm_compute. reflexivity. Qed.

(** *** Records without the USB view *)

(** C2 as stated fails on the same mixed capture: the ARP frame is not
    skipped, the run raises [AttributeError] on it and does not go on to the
    second record, which alone would be written. *)
Lemma arp_record_aborts_run :
  layers (arp_packet frame8) !! "usb" = None
  ∧ main [arp_packet frame8; iso_packet] fresh =
      (Raise AttributeError, {| out_raw := Some []; stdout := [] |})
  ∧ main [iso_packet] fresh =
      (Return (),
       {| out_raw := Some [x14; x15; x16; x17]%byte; stdout := [4%nat] |}).
Proof. vm_compute. done. Qed.

(** C2, as the code has it.  A record that lacks the USB view is not
    skipped: [packet.usb] raises [AttributeError], nothing is written for
    it, and the run stops there, with the file as the records before it left
    it; the records after it are not processed. *)
Theorem missing_usb_view_aborts (p : packet) :
  layers p !! "usb" = None →
  (∀ w, loop_body p w = (Raise AttributeError, w))
  ∧ ∀ pre post w w',
      main pre w = (Return (), w') →
      main (pre ++ p :: post) w = (Raise AttributeError, w').
Proof.
  intros Hp. split.
  - intros w. by apply loop_body_no_usb.
  - intros pre post w w'. rewrite !main_unfold. intros Hpre.
    apply (for_each_stops pre p post _ _ w' Hpre).
    by apply loop_body_no_usb.
Qed.

Lemma missing_usb_view_aborts_witness :
  main ([iso_packet] ++ arp_packet frame8 :: [iso_packet]) fresh =
    (Raise AttributeError,
     {| out_raw := Some [x14; x15; x16; x17]%byte; stdout := [4%nat] |}).
Proof.
  apply (missing_usb_view_aborts (arp_packet frame8)); vm_compute; reflexivity.
Defined.

(** *** Header lengths beyond the frame *)

(** C3.  On a matching record with header length [h ≥ 0] the body returns
    without an error and appends the frame from offset [h] on; when [h]
    reaches or exceeds the length of the frame, that is no byte at all. *)
Theorem slice_beyond_frame_is_empty (p : packet) (h : Z) (o : bytes)
    (s : list nat) :
  matching p = true → header_len_of p = Some h → 0 ≤ h →
  ∃ data,
    loop_body p {| out_raw := Some o; stdout := s |} =
      (Return (),
       {| out_raw := Some (o ++ data); stdout := s ++ [length data] |})
    ∧ data = drop (Z.to_nat h) (raw_packet p)
    ∧ (Z.of_nat (length (raw_packet p)) ≤ h → data = []).
Proof.
  intros Hm Hh Hpos. exists (slice_from (raw_packet p) h).
  split; [|split].
  - by rewrite (loop_body_matching p h).
  - by apply slice_from_nonneg.
  - apply slice_from_beyond.
Qed.

Lemma slice_beyond_frame_is_empty_witness :
  ∃ data,
    loop_body (usb_packet "0x00" "host" "27" frame8)
      {| out_raw := Some [x01]%byte; stdout := [] |} =
      (Return (),
       {| out_raw := Some ([x01]%byte ++ data);
          stdout := [] ++ [length data] |})
    ∧ data = drop (Z.to_nat 27) frame8
    ∧ (Z.of_nat (length frame8) ≤ 27 → data = []).
Proof.
  apply (slice_beyond_frame_is_empty
           (usb_packet "0x00" "host" "27" frame8) 27).
  - vm_compute; reflexivity.
  - vm_compute; reflexivity.
  - lia.
Defined.

(** *** Records the filter rejects *)

(** C4.  A record with [transfer_type != "0x00"] or [src != "host"] leaves
    the file (and the output) as they are, and the run does not depend on
    its frame: with any other bytes in its place the run is the same.  When
    the condition evaluates on it, the run is the one without the record. *)
Theorem non_matching_record_writes_nothing (p : packet) :
  usb_field p "transfer_type" ≠ Some "0x00"
  ∨ usb_field p "src" ≠ Some "host" →
  (∀ w, snd (loop_body p w) = w)
  ∧ (∀ raw pre post w,
        main (pre ++ p :: post) w =
        main (pre ++ {| layers := layers p; raw_packet := raw |} :: post) w)
  ∧ (skipped p = true →
     ∀ pre post w, main (pre ++ p :: post) w = main (pre ++ post) w).
Proof.
  intros Hm%not_matching_fields. split; [|split].
  - intros w. by destruct (loop_body_not_matching p w Hm) as [->| ->].
  - intros raw pre post w. rewrite !main_unfold, !for_each_app.
    destruct (for_each pre loop_body _) as [[[]|e] w']; [|done].
    rewrite !for_each_cons. by rewrite <-loop_body_not_matching_raw.
  - intros Hs pre post w. rewrite !main_unfold, !for_each_app.
    destruct (for_each pre loop_body _) as [[[]|e] w']; [|done].
    by rewrite for_each_cons, loop_body_skipped.
Qed.

Lemma non_matching_record_writes_nothing_witness :
  main ([iso_packet] ++ usb_packet "0x00" "device" "4" frame8 :: [iso_packet])
    fresh =
  main ([iso_packet] ++ [iso_packet]) fresh.
Proof.
  apply (non_matching_record_writes_nothing
           (usb_packet "0x00" "device" "4" frame8)).
  - right. vm_compute. discriminate.
  - vm_compute; reflexivity.
Defined.

(** *** Order of the payloads *)

(** C5 as stated fails with an ARP frame between two matching records: the
    run stops on the ARP frame, and the payload of the second matching
    record is left out of the file, though the filter passes the record. *)
Lemma record_after_abort_is_omitted :
  matching (usb_packet "0x00" "host" "6" frame8) = true
  ∧ matching iso_packet = true
  ∧ payload (usb_packet "0x00" "host" "6" frame8) = [x16; x17]%byte
  ∧ payload iso_packet = [x14; x15; x16; x17]%byte
  ∧ main [usb_packet "0x00" "host" "6" frame8; arp_packet frame8; iso_packet]
      fresh =
      (Raise AttributeError,
       {| out_raw := Some [x16; x17]%byte; stdout := [2%nat] |}).
Proof. vm_compute. done. Qed.

(** C5, as the code has it.  Let [a] come before [b] in the capture, both
    matching, and let the body raise on no record up to [b].  Then the file
    is: what the records before [a] add, the payload of [a], what the
    records between add, the payload of [b], and what the records after [b]
    that the loop gets through add.  So the payload of [a] lies wholly
    before that of [b].  When the body raises on no record after [b]
    either, the run returns, every matching record is written once and none
    is left out: the file is as long as the payloads together. *)
Theorem payloads_in_capture_order (l1 l2 l3 : list packet) (a b : packet)
    (w : world) :
  matching a = true → matching b = true →
  Forall (λ p, processable p = true) (l1 ++ a :: l2 ++ [b]) →
  out_raw (snd (main (l1 ++ a :: l2 ++ b :: l3) w)) =
    Some (written l1 ++ payload a ++ written l2 ++ payload b
          ++ written (accepted l3))
  ∧ (Forall (λ p, processable p = true) l3 →
     main (l1 ++ a :: l2 ++ b :: l3) w =
       (Return (),
        {| out_raw := Some (written l1 ++ payload a ++ written l2
                            ++ payload b ++ written l3);
           stdout := stdout w ++ reported (l1 ++ a :: l2 ++ b :: l3) |})
     ∧ length (written (l1 ++ a :: l2 ++ b :: l3)) =
         sum_list (reported (l1 ++ a :: l2 ++ b :: l3))).
Proof.
  intros Ha Hb Hpre.
  assert (l1 ++ a :: l2 ++ b :: l3 = (l1 ++ a :: l2 ++ [b]) ++ l3) as Hsplit.
  { by rewrite <-!app_assoc, <-!app_comm_cons, <-app_assoc. }
  assert (∀ l, written ((l1 ++ a :: l2 ++ [b]) ++ l) =
               written l1 ++ payload a ++ written l2 ++ payload b
               ++ written l) as Hw.
  { intros l. rewrite <-!app_assoc, <-!app_comm_cons, <-app_assoc. simpl.
    rewrite written_app, written_cons_matching by done.
    rewrite written_app, written_cons_matching by done.
    done. }
  split.
  - rewrite main_unfold.
    destruct (for_each_accepted (l1 ++ a :: l2 ++ b :: l3) [] (stdout w))
      as (r & -> & _).
    simpl. rewrite Hsplit, accepted_app by done. by rewrite Hw.
  - intros Hpost.
    assert (Forall (λ p, processable p = true) (l1 ++ a :: l2 ++ b :: l3))
      as Hall by (rewrite Hsplit; by apply Forall_app).
    split; [|apply written_length].
    rewrite main_unfold, for_each_processable by done. simpl.
    by rewrite Hsplit at 1; rewrite Hw.
Qed.

Lemma payloads_in_capture_order_witness :
  out_raw (snd (main ([usb_packet "0x01" "host" "4" frame8]
                      ++ usb_packet "0x00" "host" "6" frame8
                      :: [usb_packet "0x00" "device" "4" frame8]
                      ++ iso_packet
                      :: [usb_packet "0x00" "host" "7" frame8;
                          arp_packet frame8; iso_packet]) fresh)) =
    Some [x16; x17; x14; x15; x16; x17; x17]%byte.
Proof.
  apply (payloads_in_capture_order
           [usb_packet "0x01" "host" "4" frame8]
           [usb_packet "0x00" "device" "4" frame8]
           [usb_packet "0x00" "host" "7" frame8; arp_packet frame8;
            iso_packet]
           (usb_packet "0x00" "host" "6" frame8) iso_packet fresh).
  - vm_compute; reflexivity.
  - vm_compute; reflexivity.
  - repeat constructor; vm_compute; reflexivity.
Defined.

(** *** Captures without a matching record *)

(** C6.  When no record of the capture matches, [out.raw] exists after the
    run and is empty, whatever it held before and whether or not the run
    raised on a record. *)
Theorem no_matching_record_gives_empty_file (cap : list packet) (w : world) :
  Forall (λ p, matching p = false) cap →
  out_raw (snd (main cap w)) = Some [].
Proof.
  intros Hcap. rewrite main_unfold. by rewrite for_each_no_match.
Qed.

Lemma no_matching_record_gives_empty_file_witness :
  out_raw (snd (main [usb_packet "0x01" "host" "4" frame8;
                      usb_packet "0x00" "device" "4" frame8]
                  {| out_raw := Some frame8; stdout := [] |})) = Some [].
Proof.
  apply no_matching_record_gives_empty_file.
  repeat constructor; vm_compute; reflexivity.
Defined.

(** *** Determinism *)

(** C7.  The outcome of the run and the contents of [out.raw] after it are
    determined by the records of the capture: two runs on the same capture
    agree on both, whatever the file held and whatever had been printed
    before each. *)
Theorem main_output_determined_by_capture (cap : list packet)
    (w1 w2 : world) :
  fst (main cap w1) = fst (main cap w2)
  ∧ out_raw (snd (main cap w1)) = out_raw (snd (main cap w2)).
Proof.
  rewrite !main_unfold.
  rewrite (for_each_stdout cap _ (stdout w1)).
  rewrite (for_each_stdout cap _ (stdout w2)).
  done.
Qed.

(** *** The scenario of three records *)

(** C8.  A capture of three records: the first with [transfer_type = "0x01"],
    the second with [transfer_type = "0x00"], [src = "host"], a header length
    of 4 and a frame of 8 bytes, the third with [transfer_type = "0x00"] and
    [src = "device"].  The run returns and [out.raw] is the 4 bytes
    [raw[4:8]] of the second record. *)
Theorem three_record_scenario (p1 p2 p3 : packet) (w : world) :
  usb_field p1 "transfer_type" = Some "0x01" →
  usb_field p2 "transfer_type" = Some "0x00" →
  usb_field p2 "src" = Some "host" →
  header_len_of p2 = Some 4 →
  length (raw_packet p2) = 8%nat →
  usb_field p3 "transfer_type" = Some "0x00" →
  usb_field p3 "src" = Some "device" →
  main [p1; p2; p3] w =
    (Return (),
     {| out_raw := Some (take 4 (drop 4 (raw_packet p2)));
        stdout := stdout w ++ [4%nat] |})
  ∧ length (take 4 (drop 4 (raw_packet p2))) = 4%nat.
Proof.
  intros Ht1 Ht2 Hs2 Hh2 Hlen Ht3 Hs3.
  assert (skipped p1 = true) as H1 by (unfold skipped; by rewrite Ht1).
  assert (skipped p3 = true) as H3 by (unfold skipped; by rewrite Ht3, Hs3).
  assert (matching p2 = true) as H2 by (by apply matching_fields).
  assert (take 4 (drop 4 (raw_packet p2)) = slice_from (raw_packet p2) 4)
    as Hdata.
  { rewrite slice_from_nonneg by lia. apply take_ge.
    rewrite length_drop. lia. }
  split.
  - pose proof (skipped_not_matching _ H1) as N1.
    pose proof (skipped_not_matching _ H3) as N3.
    rewrite main_unfold, for_each_processable.
    + rewrite written_cons_not_matching, written_cons_matching by done.
      rewrite written_cons_not_matching, written_nil by done.
      rewrite reported_cons_not_matching, reported_cons_matching by done.
      rewrite reported_cons_not_matching by done.
      rewrite (payload_header_len p2 4), <-Hdata by done.
      rewrite app_nil_r, length_take, length_drop, Hlen. done.
    + repeat constructor; unfold processable.
      * by rewrite H1.
      * rewrite H2, Hh2, bool_decide_eq_true_2 by eauto.
        apply orb_true_r.
      * by rewrite H3.
  - rewrite length_take, length_drop. lia.
Qed.

Lemma three_record_scenario_witness :
  main [usb_packet "0x01" "1.2.3" "27" frame8; iso_packet;
        usb_packet "0x00" "device" "27" frame8] fresh =
    (Return (),
     {| out_raw := Some [x14; x15; x16; x17]%byte; stdout := [4%nat] |}).
Proof.
  apply (three_record_scenario
           (usb_packet "0x01" "1.2.3" "27" frame8) iso_packet
           (usb_packet "0x00" "device" "27" frame8) fresh);
    vm_compute; reflexivity.
Defined.

(** *** Header lengths that are not integers *)

(** C9.  On a matching record whose [usbpcap_header_len] is not an integer
    literal, [int] raises [ValueError]: the record is not skipped, nothing
    is written for it, and the run stops there, with the file as the
    records before it left it. *)
Theorem unparseable_header_len_aborts (p : packet) (s : string) :
  matching p = true →
  usb_field p "usbpcap_header_len" = Some s →
  py_int s = None →
  (∀ w, loop_body p w = (Raise ValueError, w))
  ∧ ∀ pre post w w',
      main pre w = (Return (), w') →
      main (pre ++ p :: post) w = (Raise ValueError, w').
Proof.
  intros Hm Hs Hint. split.
  - intros w. by apply (loop_body_bad_int p s).
  - intros pre post w w'. rewrite !main_unfold. intros Hpre.
    apply (for_each_stops pre p post _ _ w' Hpre).
    by apply (loop_body_bad_int p s).
Qed.

Lemma unparseable_header_len_aborts_witness :
  main ([iso_packet] ++ usb_packet "0x00" "host" "0x1b" frame8 :: [iso_packet])
    fresh =
    (Raise ValueError,
     {| out_raw := Some [x14; x15; x16; x17]%byte; stdout := [4%nat] |}).
Proof.
  apply (unparseable_header_len_aborts
           (usb_packet "0x00" "host" "0x1b" frame8) "0x1b");
    vm_compute; reflexivity.
Defined.

(** *** Negative header lengths *)

(** C10.  On a matching record with an integer header length [h], of either
    sign, the body returns and the bytes it appends are a suffix of the
    frame.  For [h < 0] they are the last [|h|] bytes of the frame (the
    whole frame when it has fewer), not the bytes from an offset on. *)
Theorem written_bytes_are_frame_suffix (p : packet) (h : Z) (o : bytes)
    (s : list nat) :
  matching p = true → header_len_of p = Some h →
  ∃ data,
    loop_body p {| out_raw := Some o; stdout := s |} =
      (Return (),
       {| out_raw := Some (o ++ data); stdout := s ++ [length data] |})
    ∧ data `suffix_of` raw_packet p
    ∧ (h < 0 →
       data = drop (length (raw_packet p) - Z.to_nat (- h)) (raw_packet p)
       ∧ length data = Nat.min (Z.to_nat (- h)) (length (raw_packet p))).
Proof.
  intros Hm Hh. exists (slice_from (raw_packet p) h).
  split; [|split].
  - by rewrite (loop_body_matching p h).
  - apply slice_from_suffix.
  - intros Hneg. split.
    + by apply slice_from_neg.
    + rewrite slice_from_length.
      by destruct (Z.ltb_spec h 0); [|lia].
Qed.

Lemma written_bytes_are_frame_suffix_witness :
  ∃ data,
    loop_body (usb_packet "0x00" "host" "-3" frame8)
      {| out_raw := Some [x01]%byte; stdout := [] |} =
      (Return (),
       {| out_raw := Some ([x01]%byte ++ data);
          stdout := [] ++ [length data] |})
    ∧ data `suffix_of` frame8
    ∧ (-3 < 0 →
       data = drop (length frame8 - Z.to_nat (- -3)) frame8
       ∧ length data = Nat.min (Z.to_nat (- -3)) (length frame8)).
Proof.
  apply (written_bytes_are_frame_suffix
           (usb_packet "0x00" "host" "-3" frame8) (-3));
    vm_compute; reflexivity.
Defined.

(** ** Further properties of the script *)

#[local] Set Warnings "-clear-no-such-hyp".

(** *** When the body raises *)

(** The outcome of a step does not depend on the world it runs in. *)
Lemma loop_body_outcome p w w' : fst (loop_body p w) = fst (loop_body p w').
Proof.
  destruct (loop_body_cases p) as [[data Hp]|[r Hp]]; by rewrite !Hp.
Qed.

(** [AttributeError] comes from a missing attribute and from nothing else:
    the record has no USB view, or the view has no [transfer_type], or
    [transfer_type] is ["0x00"] and the view has no [src], or the record
    matches and the view has no [usbpcap_header_len].  A missing [src] or
    header length goes unnoticed on a record that an earlier comparison
    already rejects. *)
Theorem attribute_error_conditions (p : packet) (w : world) :
  fst (loop_body p w) = Raise AttributeError
  ↔ layers p !! "usb" = None
    ∨ usb_field p "transfer_type" = None
    ∨ (usb_field p "transfer_type" = Some "0x00"
       ∧ usb_field p "src" = None)
    ∨ (matching p = true ∧ usb_field p "usbpcap_header_len" = None).
Proof.
  rewrite matching_fields. unfold usb_field. body_unfold.
  destruct (layers p !! "usb") as [u|]; simpl; [|naive_solver].
  destruct (u !! "transfer_type") as [t|]; simpl; [|naive_solver].
  destruct (String.eqb_spec t "0x00") as [->|Ht]; simpl; [|naive_solver].
  destruct (u !! "src") as [s|]; simpl; [|naive_solver].
  destruct (String.eqb_spec s "host") as [->|Hs]; simpl; [|naive_solver].
  destruct (u !! "usbpcap_header_len") as [x|]; simpl; [|naive_solver].
  destruct (py_int x); simpl; naive_solver.
Qed.

(** [ValueError] comes from [int] on the header length of a matching record
    and from nothing else: a header length that is not an integer literal
    goes unnoticed on a record the filter rejects. *)
Theorem value_error_conditions (p : packet) (w : world) :
  fst (loop_body p w) = Raise ValueError
  ↔ matching p = true
    ∧ ∃ s, usb_field p "usbpcap_header_len" = Some s ∧ py_int s = None.
Proof.
  rewrite matching_fields. unfold usb_field. body_unfold.
  destruct (layers p !! "usb") as [u|]; simpl; [|naive_solver].
  destruct (u !! "transfer_type") as [t|]; simpl; [|naive_solver].
  destruct (String.eqb_spec t "0x00") as [->|Ht]; simpl; [|naive_solver].
  destruct (u !! "src") as [s|]; simpl; [|naive_solver].
  destruct (String.eqb_spec s "host") as [->|Hs]; simpl; [|naive_solver].
  destruct (u !! "usbpcap_header_len") as [x|]; simpl; [|naive_solver].
  destruct (py_int x) eqn:Hx; simpl; naive_solver.
Qed.

Lemma loop_body_returns p w :
  processable p = true → fst (loop_body p w) = Return ().
Proof.
  intros [Hs|[Hm [h Hh]]]%processable_cases.
  - by rewrite loop_body_skipped.
  - by rewrite (loop_body_matching p h).
Qed.

Lemma for_each_raises cap w e :
  fst (for_each cap loop_body w) = Raise e →
  ∃ pre p post,
    cap = pre ++ p :: post
    ∧ Forall (λ q, processable q = true) pre
    ∧ ∀ w', loop_body p w' = (Raise e, w').
Proof.
  revert w. induction cap as [|p cap IH]; intros w; [done|].
  rewrite for_each_cons. destruct (processable p) eqn:Hp.
  - pose proof (loop_body_returns p w Hp) as Hr.
    destruct (loop_body p w) as [[[]|e'] w1]; [|done].
    intros (pre & q & post & -> & Hpre & Hq)%IH.
    exists (p :: pre), q, post. split; [done|]. split; [|done].
    by constructor.
  - destruct (loop_body_not_processable p Hp) as [e' He']. rewrite He'.
    simpl. intros [= ->]. by exists [], p, cap.
Qed.

(** A run that raises [e] stopped at one record of the capture: the body
    raises [e] on it, it raises on no record before it, and the file and the
    output are what the run on the records before it leaves. *)
Theorem main_raise_origin (cap : list packet) (w : world) (e : exn) :
  fst (main cap w) = Raise e →
  ∃ pre p post,
    cap = pre ++ p :: post
    ∧ (∀ w', loop_body p w' = (Raise e, w'))
    ∧ fst (main pre w) = Return ()
    ∧ main cap w = (Raise e, snd (main pre w)).
Proof.
  rewrite main_unfold.
  intros (pre & p & post & -> & Hpre & Hp)%for_each_raises.
  exists pre, p, post. rewrite !main_unfold.
  rewrite (for_each_processable pre [] (stdout w)) by done.
  split; [done|]. split; [done|]. split; [done|].
  apply for_each_stops; [|done]. by apply for_each_processable.
Qed.

Lemma main_raise_origin_witness :
  ∃ pre p post,
    [iso_packet; usb_packet "0x00" "host" "0x1b" frame8; arp_packet frame8]
      = pre ++ p :: post
    ∧ (∀ w', loop_body p w' = (Raise ValueError, w'))
    ∧ fst (main pre fresh) = Return ()
    ∧ main [iso_packet; usb_packet "0x00" "host" "0x1b" frame8;
            arp_packet frame8] fresh
      = (Raise ValueError, snd (main pre fresh)).
Proof.
  apply (main_raise_origin
           [iso_packet; usb_packet "0x00" "host" "0x1b" frame8;
            arp_packet frame8] fresh ValueError).
  vm_compute; reflexivity.
Defined.

(** Once the run has raised, the records that follow have no influence:
    appending records to a capture on which the run raises changes nothing. *)
Theorem main_raise_ignores_rest (pre post : list packet) (w : world)
    (e : exn) :
  fst (main pre w) = Raise e →
  main (pre ++ post) w = main pre w.
Proof.
  rewrite !main_unfold, for_each_app.
  by destruct (for_each pre loop_body _) as [[[]|e'] w'].
Qed.

Lemma main_raise_ignores_rest_witness :
  main ([iso_packet; arp_packet frame8] ++ [iso_packet; iso_packet]) fresh =
  main [iso_packet; arp_packet frame8] fresh.
Proof.
  apply (main_raise_ignores_rest [iso_packet; arp_packet frame8]
           [iso_packet; iso_packet] fresh AttributeError).
  vm_compute; reflexivity.
Defined.

(** *** What is printed and what is written *)

Lemma accepted_elem_of cap p : p ∈ accepted cap → p ∈ cap.
Proof.
  induction cap as [|q cap IH]; simpl; [done|].
  destruct (processable q); [|by intros ?%elem_of_nil].
  rewrite !elem_of_cons. intros [->|?]; [by left|right; by apply IH].
Qed.

Lemma payload_suffix p : payload p `suffix_of` raw_packet p.
Proof.
  unfold payload. destruct (header_len_of p); [apply slice_from_suffix|].
  apply suffix_nil.
Qed.

(** On every capture, whether the run returns or raises, the file is a
    sequence of chunks and the lines printed during the run are the lengths
    of these chunks, one line for each chunk and in the same order; each
    chunk is a suffix of the frame of a matching record of the capture.  So
    the numbers printed add up to the size of [out.raw]. *)
Theorem printed_lengths_match_written_chunks (cap : list packet)
    (w : world) :
  ∃ chunks : list bytes,
    out_raw (snd (main cap w)) = Some (mjoin chunks)
    ∧ stdout (snd (main cap w)) = stdout w ++ (length <$> chunks)
    ∧ length (mjoin chunks) = sum_list (length <$> chunks)
    ∧ ∀ c, c ∈ chunks →
        ∃ p, p ∈ cap ∧ matching p = true ∧ c `suffix_of` raw_packet p.
Proof.
  exists (payload <$> filter (λ p, matching p = true) (accepted cap)).
  rewrite main_unfold.
  destruct (for_each_accepted cap [] (stdout w)) as (r & -> & _). simpl.
  split; [done|]. split; [|split].
  - unfold reported. by rewrite <-list_fmap_compose.
  - rewrite <-list_fmap_compose. apply (written_length (accepted cap)).
  - intros c (p & -> & [Hm Hp]%list_elem_of_filter)%list_elem_of_fmap.
    exists p. split; [by apply accepted_elem_of|]. split; [done|].
    apply payload_suffix.
Qed.

(** The file is never longer than the frames of the matching records of
    the capture together. *)
Theorem out_raw_bounded_by_frames (cap : list packet) (w : world) :
  ∃ data,
    out_raw (snd (main cap w)) = Some data
    ∧ (length data ≤
       sum_list ((λ p, length (raw_packet p))
                   <$> filter (λ p, matching p = true) cap))%nat.
Proof.
  exists (written (accepted cap)). rewrite main_unfold.
  destruct (for_each_accepted cap [] (stdout w)) as (r & -> & _).
  split; [done|]. clear.
  induction cap as [|p cap IH]; simpl; [done|].
  destruct (processable p) eqn:Hp; [|unfold written; simpl; lia].
  destruct (matching p) eqn:Hm.
  - rewrite written_cons_matching, filter_cons_True by done.
    rewrite length_app, fmap_cons. simpl.
    apply Nat.add_le_mono; [|done].
    apply suffix_length, payload_suffix.
  - rewrite written_cons_not_matching by done.
    rewrite filter_cons_False by congruence. done.
Qed.

(** *** Longer captures *)

(** The file only grows along the capture: what the run on the first
    records of a capture writes and prints is the beginning of what the run
    on the whole capture writes and prints. *)
Theorem main_output_grows_with_capture (pre post : list packet)
    (w : world) :
  ∃ d1 d2 n1 n2,
    main pre w
      = (fst (main pre w), {| out_raw := Some d1; stdout := stdout w ++ n1 |})
    ∧ main (pre ++ post) w
      = (fst (main (pre ++ post) w),
         {| out_raw := Some (d1 ++ d2); stdout := stdout w ++ n1 ++ n2 |}).
Proof.
  rewrite !main_unfold, for_each_app.
  destruct (for_each_accepted pre [] (stdout w)) as (r & -> & _). simpl.
  destruct r as [[]|e].
  - destruct (for_each_accepted post (written (accepted pre))
                (stdout w ++ reported (accepted pre))) as (r' & -> & _).
    exists (written (accepted pre)), (written (accepted post)),
      (reported (accepted pre)), (reported (accepted post)).
    simpl. by rewrite <-app_assoc.
  - exists (written (accepted pre)), [], (reported (accepted pre)), [].
    simpl. by rewrite !app_nil_r.
Qed.

Lemma for_each_outcome cap w w' :
  fst (for_each cap loop_body w) = fst (for_each cap loop_body w').
Proof.
  revert w w'. induction cap as [|p cap IH]; intros w w'; [done|].
  rewrite !for_each_cons.
  destruct (loop_body_cases p) as [[data Hp]|[[[]|e] Hp]]; rewrite !Hp;
    simpl; [apply IH|apply IH|done].
Qed.

(** Captures one after the other: when the run on [l1] returns, the run on
    [l1 ++ l2] ends as the run on [l2] does, and its file is the file of the
    run on [l1] followed by the file of the run on [l2]. *)
Theorem main_on_appended_captures (l1 l2 : list packet) (w w' : world) :
  fst (main l1 w) = Return () →
  fst (main (l1 ++ l2) w) = fst (main l2 w')
  ∧ ∃ d1 d2,
      out_raw (snd (main l1 w)) = Some d1
      ∧ out_raw (snd (main l2 w')) = Some d2
      ∧ out_raw (snd (main (l1 ++ l2) w)) = Some (d1 ++ d2).
Proof.
  rewrite !main_unfold, for_each_app.
  destruct (for_each_accepted l1 [] (stdout w)) as (r & -> & _). simpl.
  intros ->. split; [apply for_each_outcome|].
  destruct (for_each_accepted l2 (written (accepted l1))
              (stdout w ++ reported (accepted l1))) as (r2 & -> & _).
  destruct (for_each_accepted l2 [] (stdout w')) as (r2' & -> & _).
  by exists (written (accepted l1)), (written (accepted l2)).
Qed.

Lemma main_on_appended_captures_witness :
  fst (main ([usb_packet "0x00" "host" "6" frame8]
             ++ [iso_packet; arp_packet frame8]) fresh)
    = fst (main [iso_packet; arp_packet frame8]
             {| out_raw := Some frame8; stdout := [] |})
  ∧ ∃ d1 d2,
      out_raw (snd (main [usb_packet "0x00" "host" "6" frame8] fresh))
        = Some d1
      ∧ out_raw (snd (main [iso_packet; arp_packet frame8]
                        {| out_raw := Some frame8; stdout := [] |}))
        = Some d2
      ∧ out_raw (snd (main ([usb_packet "0x00" "host" "6" frame8]
                            ++ [iso_packet; arp_packet frame8]) fresh))
        = Some (d1 ++ d2).
Proof.
  apply (main_on_appended_captures
           [usb_packet "0x00" "host" "6" frame8]
           [iso_packet; arp_packet frame8] fresh
           {| out_raw := Some frame8; stdout := [] |}).
  vm_compute; reflexivity.
Defined.

(** *** Filtering beforehand *)

Lemma processable_filter cap :
  Forall (λ p, processable p = true) cap →
  Forall (λ p, processable p = true) (filter (λ p, matching p = true) cap).
Proof.
  rewrite !Forall_forall. intros Hcap p [_ Hp]%list_elem_of_filter. eauto.
Qed.

(** On a capture on which the body raises on no record, dropping beforehand
    the records the filter rejects changes nothing: the run on the matching
    records alone returns as well, with the same file and the same lines
    printed. *)
Theorem main_on_prefiltered_capture (cap : list packet) (w : world) :
  Forall (λ p, processable p = true) cap →
  main (filter (λ p, matching p = true) cap) w = main cap w.
Proof.
  intros Hcap. rewrite !main_unfold.
  rewrite !for_each_processable by (done || by apply processable_filter).
  unfold written, reported. by rewrite !list_filter_filter_l.
Qed.

Lemma main_on_prefiltered_capture_witness :
  main (filter (λ p, matching p = true)
          [usb_packet "0x01" "host" "x" frame8; iso_packet;
           usb_packet "0x00" "device" "4" frame8]) fresh
  = main [usb_packet "0x01" "host" "x" frame8; iso_packet;
          usb_packet "0x00" "device" "4" frame8] fresh.
Proof.
  apply (main_on_prefiltered_capture
           [usb_packet "0x01" "host" "x" frame8; iso_packet;
            usb_packet "0x00" "device" "4" frame8] fresh).
  repeat constructor; vm_compute; reflexivity.
Defined.
